(** * webresolver: a shallow embedding of [src/index.js]

    The module is a thin client of the webresolver HTTP API.  Every public
    method checks its primary argument with [isEmpty] (and, for IP and
    email arguments, with the [validator] package), then either returns a
    synthetic object [{data: {error: ...}}] or performs one [axios.get] on
    a URL obtained by string concatenation.

    Modelling choices:
    - a JavaScript string is its sequence of UTF-16 code units
      ([jsstring := list N]); literals of the source are written
      [js "..."];
    - a JavaScript value is one of the primitives a caller can pass
      ([JsValue]); numbers are the integer-valued ones, whose [ToString]
      is the decimal notation (exact for magnitudes below 10^21);
    - effects are explicit: a computation yields the list of events it
      performed ([EGet] for [axios.get], [EConsoleLog] for [console.log])
      and a completion, [Normal] for a returned value (a fulfilled
      promise) or [Throw] for an exception (a rejected promise);
    - the packages [validator] and [axios] are not part of the repository:
      they are parameters ([Validator], [Transport]); what the proofs need
      from [validator] is stated as [ValidatorContract]. *)

From Stdlib Require Import String Ascii.
From stdpp Require Import base decidable option numbers list strings pretty.

Local Open Scope N_scope.
Local Open Scope list_scope.

(** ** JavaScript strings and values *)

Definition code_unit := N.
Definition jsstring := list code_unit.

(** A literal of the source, as code units. *)
Definition js (s : string) : jsstring :=
  map N_of_ascii (list_ascii_of_string s).
Arguments js : simpl never.

Inductive JsValue :=
| JUndefined
| JNull
| JBool (b : bool)
| JNumber (n : Z)
| JString (s : jsstring).

#[global] Instance JsValue_eq_dec : EqDecision JsValue.
Proof. solve_decision. Defined.

(** [ToString], which the [+] of a string and a value applies to the value. *)
Definition ToString (v : JsValue) : jsstring :=
  match v with
  | JUndefined => js "undefined"
  | JNull => js "null"
  | JBool true => js "true"
  | JBool false => js "false"
  | JNumber n => js (pretty n)
  | JString s => s
  end.

(** [v === w] on primitives. *)
Definition strict_eq (v w : JsValue) : bool := bool_decide (v = w).

(** [typeof v === 'string'] *)
Definition typeof_string (v : JsValue) : bool :=
  match v with JString _ => true | _ => false end.

(** A parameter with a default: the default applies when the argument is
    missing or [undefined]. *)
Definition default_param (d v : JsValue) : JsValue :=
  match v with JUndefined => d | _ => v end.

(** The [i]-th argument of a call; a missing argument is [undefined]. *)
Definition arg (i : nat) (args : list JsValue) : JsValue :=
  nth i args JUndefined.

(** *** [String.prototype.trim]

    ECMAScript's WhiteSpace and LineTerminator code points: TAB, LF, VT,
    FF, CR, SP, NBSP, U+1680, U+2000..U+200A, U+2028, U+2029, U+202F,
    U+205F, U+3000 and U+FEFF. *)
Definition is_js_whitespace (c : code_unit) : bool :=
  ((9 <=? c) && (c <=? 13)) || (c =? 32) || (c =? 160) || (c =? 5760)
  || ((8192 <=? c) && (c <=? 8202)) || (c =? 8232) || (c =? 8233)
  || (c =? 8239) || (c =? 8287) || (c =? 12288) || (c =? 65279).

Fixpoint trimStart (s : jsstring) : jsstring :=
  match s with
  | [] => []
  | c :: s' => if is_js_whitespace c then trimStart s' else s
  end.

Definition trimEnd (s : jsstring) : jsstring := rev (trimStart (rev s)).

Definition trim (s : jsstring) : jsstring := trimEnd (trimStart s).

(** A string made of whitespace only (the empty string included). *)
Definition whitespace_only (s : jsstring) : bool := forallb is_js_whitespace s.

(** What [isEmpty] takes for empty before it consults [validator]. *)
Definition blank (v : JsValue) : bool :=
  match v with
  | JUndefined | JNull => true
  | JString s => whitespace_only s
  | _ => false
  end.

(** ** Effects *)

Inductive JsError :=
| TypeError (msg : jsstring)
| TransportError (msg : jsstring).

Inductive completion (A : Type) :=
| Normal (a : A)
| Throw (e : JsError).
Arguments Normal {A} a.
Arguments Throw {A} e.

Inductive event :=
| EGet (url : jsstring)
| EConsoleLog (error : jsstring).

(** A computation: the events it performed, in order, and how it ended. *)
Definition Eff (A : Type) : Type := list event * completion A.

Definition ret {A} (a : A) : Eff A := ([], Normal a).

(** Sequencing: an exception ends the computation, the events stay. *)
Definition bind {A B} (m : Eff A) (f : A → Eff B) : Eff B :=
  match m with
  | (t, Normal a) => let '(t', r) := f a in (t ++ t', r)
  | (t, Throw e) => (t, Throw e)
  end.

Declare Scope eff_scope.
Delimit Scope eff_scope with eff.
Notation "x <- m ;; f" := (bind m (fun x => f))
  (at level 100, m at next level, right associativity) : eff_scope.
Notation "m ;; f" := (bind m (fun _ => f))
  (at level 100, right associativity) : eff_scope.
Local Open Scope eff_scope.

(** A call of a library function without side effect of its own. *)
Definition pure_call {A} (c : completion A) : Eff A := ([], c).

Definition events {A} (m : Eff A) : list event := m.1.
Definition outcome {A} (m : Eff A) : completion A := m.2.

(** The URLs of the outbound requests among some events. *)
Definition requests (t : list event) : list jsstring :=
  omap (λ e, match e with EGet u => Some u | EConsoleLog _ => None end) t.

(** ** The packages the module requires *)

(** [validator]: each function returns a boolean or throws. *)
Class Validator := {
  validator_isEmpty : JsValue → completion bool;
  validator_isIP : JsValue → completion bool;
  validator_isEmail : JsValue → completion bool;
}.

(** What [validator] documents: every function first asserts that its
    argument is a string and throws a [TypeError] otherwise;
    [isEmpty(str)] is [str.length === 0]. *)
Class ValidatorContract (V : Validator) := {
  isEmpty_of_string s :
    validator_isEmpty (JString s) = Normal (bool_decide (length s = 0%nat));
  isEmpty_asserts_string v :
    typeof_string v = false → ∃ msg, validator_isEmpty v = Throw (TypeError msg);
}.

(** [axios]: the settlement of [axios.get(url)], a response or a failure. *)
Class Transport (Response : Type) := {
  transport : jsstring → completion Response;
}.

(** What a method resolves to: the object [{data: {error: error}}] built
    locally, or the response of the transport as it is. *)
Inductive Result (Response : Type) :=
| Synthetic (error : jsstring)
| Received (r : Response).
Arguments Synthetic {Response} error.
Arguments Received {Response} r.

Record WebResolver := { baseURL : jsstring }.

Section WebResolver.
Context {V : Validator} {Response : Type} {T : Transport Response}.

(** [await axios.get(url)] *)
Definition axios_get (url : jsstring) : Eff (Result Response) :=
  ([EGet url],
   match transport url with
   | Normal r => Normal (Received r)
   | Throw e => Throw e
   end).

(** [console.log({error: error})] *)
Definition console_log (error : jsstring) : Eff unit :=
  ([EConsoleLog error], Normal ()).

(** [{data: {error: error}}] *)
Definition error_object (error : string) : Eff (Result Response) :=
  ret (Synthetic (js error)).

(** index.js, lines 15-21.  The operands of [||] are evaluated from left
    to right, each only when the ones before it are false. *)
Definition isEmpty (value : JsValue) : Eff bool :=
  if strict_eq value JUndefined
     || strict_eq value JNull
     || (typeof_string value && bool_decide (length (trim (ToString value)) = 0%nat))
  then ret true
  else b <- pure_call (validator_isEmpty value) ;;
       if b then ret true else ret false.

(** index.js, lines 24-27 *)
Definition constructor (key : JsValue) : Eff WebResolver :=
  e <- isEmpty key ;;
  (if e then console_log (js "Get your API key here: https://webresolver.nl/api/plans")
   else ret ());;
  ret {| baseURL := js "https://webresolver.nl/api.php?key=" ++ ToString key |}.

Definition skypeResolve (this : WebResolver) (username : JsValue) : Eff (Result Response) :=
  e <- isEmpty username ;;
  if e then error_object "Please enter a Skype username!"
  else axios_get (baseURL this ++ js "&json&action=resolve&string=" ++ ToString username).

Definition resolveDb (this : WebResolver) (username : JsValue) : Eff (Result Response) :=
  e <- isEmpty username ;;
  if e then error_object "Please enter a Skype username!"
  else axios_get (baseURL this ++ js "&json&action=resolvedb&string=" ++ ToString username).

Definition ip2skype (this : WebResolver) (ip : JsValue) : Eff (Result Response) :=
  e <- isEmpty ip ;;
  if e then error_object "Please enter a valid IP address!"
  else
    ok <- pure_call (validator_isIP ip) ;;
    if ok then axios_get (baseURL this ++ js "&json&action=ip2skype&string=" ++ ToString ip)
    else error_object "Please enter a valid IP address!".

Definition email2skype (this : WebResolver) (email : JsValue) : Eff (Result Response) :=
  e <- isEmpty email ;;
  if e then error_object "Please enter a valid email address!"
  else
    ok <- pure_call (validator_isEmail email) ;;
    if ok then axios_get (baseURL this ++ js "&json&action=email2skype&string=" ++ ToString email)
    else error_object "Please enter a valid email address!".

Definition skype2email (this : WebResolver) (username : JsValue) : Eff (Result Response) :=
  e <- isEmpty username ;;
  if e then error_object "Please enter a Skype username!"
  else axios_get (baseURL this ++ js "&json&action=skype2email&string=" ++ ToString username).

Definition geoIp (this : WebResolver) (domain : JsValue) : Eff (Result Response) :=
  e <- isEmpty domain ;;
  if e then error_object "Please enter a domain, IPv4 or IPv6 address!"
  else axios_get (baseURL this ++ js "&json&action=geoip&string=" ++ ToString domain).

Definition dns (this : WebResolver) (domain : JsValue) : Eff (Result Response) :=
  e <- isEmpty domain ;;
  if e then error_object "Please enter a domain!"
  else axios_get (baseURL this ++ js "&json&action=dns&string=" ++ ToString domain).

Definition cloudflare (this : WebResolver) (domain : JsValue) : Eff (Result Response) :=
  e <- isEmpty domain ;;
  if e then error_object "Please enter a domain!"
  else axios_get (baseURL this ++ js "&json&action=cloudflare&string=" ++ ToString domain).

Definition phone (this : WebResolver) (phonenumber : JsValue) : Eff (Result Response) :=
  e <- isEmpty phonenumber ;;
  if e then error_object "Please enter a phone number! (Use international phone format)"
  else axios_get (baseURL this ++ js "&json&action=phonenumbercheck&string=" ++ ToString phonenumber).

Definition screenshot (this : WebResolver) (url : JsValue) : Eff (Result Response) :=
  e <- isEmpty url ;;
  if e then error_object "Please enter a url!"
  else axios_get (baseURL this ++ js "&json&action=screenshot&string=" ++ ToString url).

Definition headers (this : WebResolver) (domain : JsValue) : Eff (Result Response) :=
  e <- isEmpty domain ;;
  if e then error_object "Please enter a domain!"
  else axios_get (baseURL this ++ js "&html=0&action=header&string=" ++ ToString domain).

Definition whois (this : WebResolver) (url : JsValue) : Eff (Result Response) :=
  e <- isEmpty url ;;
  if e then error_object "Please enter a url!"
  else axios_get (baseURL this ++ js "&html=0&action=whois&string=" ++ ToString url).

Definition ping (this : WebResolver) (url : JsValue) : Eff (Result Response) :=
  e <- isEmpty url ;;
  if e then error_object "Please enter a url!"
  else axios_get (baseURL this ++ js "&html=0&action=ping&string=" ++ ToString url).

(** [portscan(url, port=null)] *)
Definition portscan (this : WebResolver) (url port_arg : JsValue) : Eff (Result Response) :=
  let port := default_param JNull port_arg in
  e <- isEmpty url ;;
  if e then error_object "Please enter a url!"
  else
    if strict_eq port JNull
    then axios_get (baseURL this ++ js "&json&action=portscan&string=" ++ ToString url)
    else axios_get (baseURL this ++ js "&json&action=portscan&string=" ++ ToString url
                      ++ js "&port=" ++ ToString port).

(** [iplogger(logger="", id="")] *)
Definition iplogger (this : WebResolver) (logger_arg id_arg : JsValue) : Eff (Result Response) :=
  let logger := default_param (JString (js "")) logger_arg in
  let id := default_param (JString (js "")) id_arg in
  axios_get (baseURL this ++ js "&json&action=iplogger&string=" ++ ToString id
               ++ js "&logger=" ++ ToString logger).

Definition isTempEmail (this : WebResolver) (email : JsValue) : Eff (Result Response) :=
  e <- isEmpty email ;;
  if e then error_object "Please enter a valid email address!"
  else
    ok <- pure_call (validator_isEmail email) ;;
    if ok then axios_get (baseURL this ++ js "&json&action=disposable_email&string=" ++ ToString email)
    else error_object "Please enter a valid email address!".

Definition ip2websites (this : WebResolver) (ip : JsValue) : Eff (Result Response) :=
  e <- isEmpty ip ;;
  if e then error_object "Please enter a valid IP address!"
  else
    ok <- pure_call (validator_isIP ip) ;;
    if ok then axios_get (baseURL this ++ js "&json&action=ip2websites&string=" ++ ToString ip)
    else error_object "Please enter a valid IP address!".

Definition domainInfo (this : WebResolver) (domain : JsValue) : Eff (Result Response) :=
  e <- isEmpty domain ;;
  if e then error_object "Please enter a domain!"
  else axios_get (baseURL this ++ js "&json&action=domaininfo&string=" ++ ToString domain).

End WebResolver.

(** ** The public methods as a family *)

Inductive method :=
| SkypeResolve | ResolveDb | Ip2skype | Email2skype | Skype2email | GeoIp
| Dns | Cloudflare | Phone | Screenshot | Headers | Whois | Ping | Portscan
| Iplogger | IsTempEmail | Ip2websites | DomainInfo.

#[global] Instance method_eq_dec : EqDecision method.
Proof. solve_decision. Defined.

(** The methods that validate their primary argument: all but [iplogger]. *)
Definition validated (m : method) : bool :=
  match m with Iplogger => false | _ => true end.

(** [this.m(...args)] *)
Definition call {V : Validator} {Response : Type} {T : Transport Response}
    (m : method) (this : WebResolver) (args : list JsValue) : Eff (Result Response) :=
  match m with
  | SkypeResolve => skypeResolve this (arg 0 args)
  | ResolveDb => resolveDb this (arg 0 args)
  | Ip2skype => ip2skype this (arg 0 args)
  | Email2skype => email2skype this (arg 0 args)
  | Skype2email => skype2email this (arg 0 args)
  | GeoIp => geoIp this (arg 0 args)
  | Dns => dns this (arg 0 args)
  | Cloudflare => cloudflare this (arg 0 args)
  | Phone => phone this (arg 0 args)
  | Screenshot => screenshot this (arg 0 args)
  | Headers => headers this (arg 0 args)
  | Whois => whois this (arg 0 args)
  | Ping => ping this (arg 0 args)
  | Portscan => portscan this (arg 0 args) (arg 1 args)
  | Iplogger => iplogger this (arg 0 args) (arg 1 args)
  | IsTempEmail => isTempEmail this (arg 0 args)
  | Ip2websites => ip2websites this (arg 0 args)
  | DomainInfo => domainInfo this (arg 0 args)
  end.

(** The tables below are what the theorems compare the methods with; the
    methods themselves carry their literals. *)

(** The message of a method for an empty primary argument. *)
Definition empty_prompt (m : method) : jsstring :=
  match m with
  | SkypeResolve | ResolveDb | Skype2email => js "Please enter a Skype username!"
  | Ip2skype | Ip2websites => js "Please enter a valid IP address!"
  | Email2skype | IsTempEmail => js "Please enter a valid email address!"
  | GeoIp => js "Please enter a domain, IPv4 or IPv6 address!"
  | Dns | Cloudflare | Headers | DomainInfo => js "Please enter a domain!"
  | Phone => js "Please enter a phone number! (Use international phone format)"
  | Screenshot | Whois | Ping | Portscan => js "Please enter a url!"
  | Iplogger => []
  end.

(** The action code of a method. *)
Definition action_code (m : method) : jsstring :=
  match m with
  | SkypeResolve => js "resolve"
  | ResolveDb => js "resolvedb"
  | Ip2skype => js "ip2skype"
  | Email2skype => js "email2skype"
  | Skype2email => js "skype2email"
  | GeoIp => js "geoip"
  | Dns => js "dns"
  | Cloudflare => js "cloudflare"
  | Phone => js "phonenumbercheck"
  | Screenshot => js "screenshot"
  | Headers => js "header"
  | Whois => js "whois"
  | Ping => js "ping"
  | Portscan => js "portscan"
  | Iplogger => js "iplogger"
  | IsTempEmail => js "disposable_email"
  | Ip2websites => js "ip2websites"
  | DomainInfo => js "domaininfo"
  end.

(** The output-format parameter of a method. *)
Definition format_param (m : method) : jsstring :=
  match m with
  | Headers | Whois | Ping => js "&html=0"
  | _ => js "&json"
  end.

(** The format check a method applies after the emptiness check. *)
Inductive format := AnyText | IPAddress | EmailAddress.

Definition format_of (m : method) : format :=
  match m with
  | Ip2skype | Ip2websites => IPAddress
  | Email2skype | IsTempEmail => EmailAddress
  | _ => AnyText
  end.

(** The format check on a value: passed, failed, or an exception of
    [validator]. *)
Definition format_check `{Validator} (f : format) (v : JsValue) : completion bool :=
  match f with
  | AnyText => Normal true
  | IPAddress => validator_isIP v
  | EmailAddress => validator_isEmail v
  end.

(** What follows [&string=<primary>]: the port of [portscan] when one is
    given, the logger of [iplogger], nothing otherwise. *)
Definition extra_params (m : method) (args : list JsValue) : jsstring :=
  match m with
  | Portscan =>
      match arg 1 args with
      | JUndefined | JNull => []
      | port => js "&port=" ++ ToString port
      end
  | Iplogger => js "&logger=" ++ ToString (default_param (JString []) (arg 0 args))
  | _ => []
  end.

(** The text a method puts after [&string=]. *)
Definition string_param (m : method) (args : list JsValue) : jsstring :=
  match m with
  | Iplogger => ToString (default_param (JString []) (arg 1 args))
  | _ => ToString (arg 0 args)
  end.

(** The URL of the request of a method, assembled from the tables. *)
Definition request_url (m : method) (this : WebResolver) (args : list JsValue) : jsstring :=
  baseURL this ++ format_param m ++ js "&action=" ++ action_code m
    ++ js "&string=" ++ string_param m args ++ extra_params m args.

(** The endpoint, up to the value of the key. *)
Definition api_prefix : jsstring := js "https://webresolver.nl/api.php?key=".

(** The warning of the constructor. *)
Definition key_warning : jsstring :=
  js "Get your API key here: https://webresolver.nl/api/plans".

(** ** Reading a URL back *)

(** [s.split(sep)] for a one-character separator. *)
Fixpoint split_on (sep : code_unit) (s : jsstring) : list jsstring :=
  match s with
  | [] => [[]]
  | c :: s' =>
      if c =? sep then [] :: split_on sep s'
      else match split_on sep s' with
           | [] => [[c]]
           | w :: ws => (c :: w) :: ws
           end
  end.

(** What follows the first [sep] of [s]; nothing when there is none. *)
Fixpoint after_first (sep : code_unit) (s : jsstring) : jsstring :=
  match s with
  | [] => []
  | c :: s' => if c =? sep then s' else after_first sep s'
  end.

(** What precedes the first [sep] of [s]; all of [s] when there is none. *)
Fixpoint before_first (sep : code_unit) (s : jsstring) : jsstring :=
  match s with
  | [] => []
  | c :: s' => if c =? sep then [] else c :: before_first sep s'
  end.

Definition amp : code_unit := 38.      (* & *)
Definition equals : code_unit := 61.   (* = *)
Definition qmark : code_unit := 63.    (* ? *)







(** [p] occurs in [s] as a contiguous block. *)
Definition infix_of (p s : jsstring) : Prop := ∃ a b, s = a ++ p ++ b.

Fixpoint is_prefix (p s : jsstring) : bool :=
  match p, s with
  | [], _ => true
  | _ :: _, [] => false
  | c :: p', d :: s' => (c =? d) && is_prefix p' s'
  end.

(** [s.includes(p)] *)
Fixpoint includes (s p : jsstring) : bool :=
  is_prefix p s || match s with [] => false | _ :: s' => includes s' p end.

(** The template of a query: each word of [ws] behind a [&], then [rest]. *)
Definition join_params (ws : list jsstring) (rest : jsstring) : jsstring :=
  foldr (λ w acc, amp :: w ++ acc) rest ws.


(** ** A concrete validator and transport

    Stand-ins for the two packages, on which the methods can be run:
    [isIP] accepts dotted-quad IPv4 addresses, [isEmail] accepts
    [local@domain] with a dot in the domain and no empty part, and every
    function throws a [TypeError] on a value that is not a string. *)
Module Sample.

Definition is_digit (c : code_unit) : bool := (48 <=? c) && (c <=? 57).

(** The number a string of decimal digits denotes. *)
Definition decimal_value (w : jsstring) : N :=
  fold_left (λ acc c, 10 * acc + (c - 48)) w 0.

(** [0]..[255], without a leading zero. *)
Definition ipv4_octet (w : jsstring) : bool :=
  match w with
  | [] => false
  | [c] => is_digit c
  | c :: _ =>
      forallb is_digit w && negb (c =? 48)
      && (length w <=? 3)%nat && (decimal_value w <=? 255)
  end.

Definition isIP (s : jsstring) : bool :=
  let parts := split_on 46 s in
  (length parts =? 4)%nat && forallb ipv4_octet parts.

Definition nonempty (w : jsstring) : bool :=
  match w with [] => false | _ => true end.

Definition isEmail (s : jsstring) : bool :=
  match split_on 64 s with
  | [loc; domain] =>
      let labels := split_on 46 domain in
      nonempty loc && (2 <=? length labels)%nat && forallb nonempty labels
      && negb (existsb is_js_whitespace s)
  | _ => false
  end.

Definition on_string (f : jsstring → bool) (v : JsValue) : completion bool :=
  match v with
  | JString s => Normal (f s)
  | _ => Throw (TypeError (js "Expected a string"))
  end.

#[export] Instance validator : Validator := {|
  validator_isEmpty := on_string (λ s, bool_decide (length s = 0%nat));
  validator_isIP := on_string isIP;
  validator_isEmail := on_string isEmail;
|}.

(** A transport that answers every request with the text [ok], except
    that a URL with a space in it is refused. *)
#[export] Instance axios : Transport jsstring := {|
  transport url :=
    if existsb (N.eqb 32) url then Throw (TransportError (js "Bad Request"))
    else Normal (js "ok");
|}.

(** The client [new WebResolver(key)] returns. *)
Definition client (key : string) : WebResolver :=
  {| baseURL := js "https://webresolver.nl/api.php?key=" ++ js key |}.

(** [this.m(...args)] on these stand-ins, for [this = new WebResolver(key)]. *)
Definition run (m : method) (key : string) (args : list JsValue)
    : Eff (Result jsstring) :=
  call (V:=validator) (T:=axios) m (client key) args.

End Sample.

(** * Properties *)

(** A closed decidable fact, by evaluation. *)
Local Ltac by_eval := apply (bool_decide_unpack _); vm_compute; exact I.

(** The stand-in validator keeps the contract. *)
Lemma sample_validator_contract : ValidatorContract Sample.validator.
Proof.
  split.
  - reflexivity.
  - intros [] Hv; try discriminate; eexists; reflexivity.
Qed.

(** ** Whitespace and [trim] *)

Lemma whitespace_only_trimStart s :
  whitespace_only (trimStart s) = whitespace_only s.
Proof.
  induction s as [|c s IH]; simpl; [done|].
  destruct (is_js_whitespace c) eqn:Hc; simpl; [done|].
  by rewrite Hc.
Qed.

Lemma trimStart_nil s : trimStart s = [] ↔ whitespace_only s = true.
Proof.
  induction s as [|c s IH]; simpl; [done|].
  destruct (is_js_whitespace c); simpl; [done|].
  split; discriminate.
Qed.

Lemma whitespace_only_rev s : whitespace_only (rev s) = whitespace_only s.
Proof.
  unfold whitespace_only. induction s as [|c s IH]; simpl; [done|].
  rewrite forallb_app, IH. simpl. rewrite andb_true_r. apply andb_comm.
Qed.

(** [s.trim().length === 0] exactly when [s] is whitespace only. *)
Lemma trim_length_0 s :
  bool_decide (length (trim s) = 0%nat) = whitespace_only s.
Proof.
  rewrite <- (whitespace_only_trimStart s), <- (whitespace_only_rev (trimStart s)).
  unfold trim, trimEnd. rewrite length_rev.
  destruct (whitespace_only (rev (trimStart s))) eqn:Hw.
  - apply trimStart_nil in Hw. rewrite Hw. done.
  - apply bool_decide_eq_false. intros Hl.
    apply length_zero_iff_nil, trimStart_nil in Hl. congruence.
Qed.

(** ** [isEmpty] *)

Section IsEmpty.
Context {V : Validator}.

(** [isEmpty] performs no event. *)
Lemma isEmpty_events v : ∃ c, isEmpty v = ([], c).
Proof.
  unfold isEmpty.
  destruct (_ || _); [by eexists|].
  unfold pure_call, bind. destruct (validator_isEmpty v) as [[]|]; by eexists.
Qed.

Lemma isEmpty_blank v : blank v = true → isEmpty v = ([], Normal true).
Proof.
  unfold isEmpty. destruct v as [| |b|n|s]; simpl; try done.
  intros Hs. rewrite trim_length_0, Hs. done.
Qed.

Context {VC : ValidatorContract V}.

Lemma isEmpty_text s :
  whitespace_only s = false → isEmpty (JString s) = ([], Normal false).
Proof.
  intros Hs. unfold isEmpty. simpl. rewrite trim_length_0, Hs. simpl.
  rewrite isEmpty_of_string. destruct s; [done|]. done.
Qed.

Lemma isEmpty_not_string v :
  blank v = false → typeof_string v = false →
  ∃ msg, isEmpty v = ([], Throw (TypeError msg)).
Proof.
  intros Hb Hv. destruct (isEmpty_asserts_string v Hv) as [msg Hmsg].
  exists msg. unfold isEmpty. destruct v; try done; simpl; by rewrite Hmsg.
Qed.
End IsEmpty.

(** ** The shape of every method *)

Section Methods.
Context {V : Validator} {Response : Type} {T : Transport Response}.
Implicit Types (m : method) (this : WebResolver) (args : list JsValue).

Local Ltac run_isEmpty H :=
  unfold call, skypeResolve, resolveDb, ip2skype, email2skype, skype2email,
    geoIp, dns, cloudflare, phone, screenshot, headers, whois, ping, portscan,
    isTempEmail, ip2websites, domainInfo;
  rewrite H;
  cbn [bind pure_call ret error_object axios_get app default_param strict_eq].

(** An empty primary argument: the prompt, and no event. *)
Lemma call_empty m this args :
  validated m = true →
  isEmpty (arg 0 args) = ([], Normal true) →
  call m this args = ([], Normal (Synthetic (empty_prompt m))).
Proof. intros Hm He. destruct m; try discriminate Hm; by run_isEmpty He. Qed.

(** An exception of [isEmpty] is the method's; no event. *)
Lemma call_throw m this args e :
  validated m = true →
  isEmpty (arg 0 args) = ([], Throw e) →
  call (Response:=Response) m this args = ([], Throw e).
Proof. intros Hm He. destruct m; try discriminate Hm; by run_isEmpty He. Qed.

(** A primary argument that is not empty: the format check decides. *)
Lemma call_text m this args :
  validated m = true →
  isEmpty (arg 0 args) = ([], Normal false) →
  call m this args =
    match format_check (format_of m) (arg 0 args) with
    | Normal true => axios_get (request_url m this args)
    | Normal false => ([], Normal (Synthetic (empty_prompt m)))
    | Throw e => ([], Throw e)
    end.
Proof.
  intros Hm He. unfold request_url.
  destruct m; try discriminate Hm; run_isEmpty He;
    cbn [format_of format_check string_param extra_params];
    rewrite ?app_nil_r; try reflexivity.
  - destruct (validator_isIP (arg 0 args)) as [[]|]; reflexivity.
  - destruct (validator_isEmail (arg 0 args)) as [[]|]; reflexivity.
  - destruct (arg 1 args); rewrite ?app_nil_r; reflexivity.
  - destruct (validator_isEmail (arg 0 args)) as [[]|]; reflexivity.
  - destruct (validator_isIP (arg 0 args)) as [[]|]; reflexivity.
Qed.

(** [iplogger] goes straight to the transport. *)
Lemma call_iplogger this args :
  call Iplogger this args = axios_get (request_url Iplogger this args).
Proof. reflexivity. Qed.

(** Every call ends in one of three ways: a synthetic error and no
    event, an exception and no event, or the one request of the method. *)
Lemma call_cases m this args :
  (∃ msg, call m this args = ([], Normal (Synthetic msg)))
  ∨ (∃ e, call (Response:=Response) m this args = ([], Throw e))
  ∨ call m this args = axios_get (request_url m this args).
Proof.
  destruct (validated m) eqn:Hm.
  - destruct (isEmpty_events (arg 0 args)) as [[[]|e] He].
    + left. eexists. by apply call_empty.
    + rewrite (call_text _ _ _ Hm He).
      destruct (format_check _ _) as [[]|e]; eauto.
    + right; left. eexists. by apply call_throw.
  - destruct m; try discriminate Hm. right; right. apply call_iplogger.
Qed.
End Methods.

(** ** Splitting and occurrences *)

Section Split.
Variable sep : code_unit.
Implicit Types (s a b p x : jsstring).

Lemma split_on_cons_sep s : split_on sep (sep :: s) = [] :: split_on sep s.
Proof. simpl. by rewrite N.eqb_refl. Qed.

Lemma split_on_cons_other c s :
  c ≠ sep →
  ∃ w ws, split_on sep s = w :: ws ∧ split_on sep (c :: s) = (c :: w) :: ws.
Proof.
  intros Hc. simpl. apply N.eqb_neq in Hc. rewrite Hc. clear Hc.
  destruct s as [|d s]; simpl; [by eauto|].
  destruct (d =? sep); [by eauto|].
  destruct (split_on sep s); by eauto.
Qed.

Lemma split_on_free s : sep ∉ s → split_on sep s = [s].
Proof.
  induction s as [|c s IH]; [done|]. intros Hs.
  apply not_elem_of_cons in Hs as [Hc Hs].
  destruct (split_on_cons_other c s) as (w & ws & Hw & ->); [done|].
  rewrite IH in Hw by done. by inversion Hw.
Qed.

(** The pieces of [a ++ b] when [a] has no separator: [a] joins the
    first piece of [b]. *)
Lemma split_on_app_free a b :
  sep ∉ a →
  ∃ w ws, split_on sep b = w :: ws ∧ split_on sep (a ++ b) = (a ++ w) :: ws.
Proof.
  induction a as [|c a IH]; intros Ha; simpl app.
  - destruct b as [|d b]; [by exists [], []|].
    destruct (decide (d = sep)) as [->|Hd].
    + exists [], (split_on sep b). rewrite split_on_cons_sep. by split.
    + destruct (split_on_cons_other d b Hd) as (w & ws & _ & ->). by exists (d :: w), ws.
  - apply not_elem_of_cons in Ha as [Hc Ha].
    destruct (IH Ha) as (w & ws & Hb & Hab).
    destruct (split_on_cons_other c (a ++ b)) as (w' & ws' & Hw' & ->); [done|].
    rewrite Hab in Hw'. inversion Hw'; subst. by eauto.
Qed.

(** Splitting distributes over a separator. *)
Lemma split_on_app a b :
  split_on sep (a ++ sep :: b) = split_on sep a ++ split_on sep b.
Proof.
  induction a as [|c a IH].
  - rewrite app_nil_l, split_on_cons_sep. reflexivity.
  - rewrite <- app_comm_cons. destruct (decide (c = sep)) as [->|Hc].
    + rewrite !split_on_cons_sep, IH. reflexivity.
    + destruct (split_on_cons_other c a Hc) as (w & ws & Hw & ->).
      destruct (split_on_cons_other c (a ++ sep :: b) Hc) as (w' & ws' & Hw' & ->).
      rewrite IH, Hw in Hw'. inversion Hw'; by subst.
Qed.

(** A piece without separator in front of a separator is a piece. *)
Lemma split_on_word a b :
  sep ∉ a → split_on sep (a ++ sep :: b) = a :: split_on sep b.
Proof. intros Ha. by rewrite split_on_app, split_on_free. Qed.

(** The first piece starts the string. *)
Lemma split_on_head s w ws : split_on sep s = w :: ws → w `prefix_of` s.
Proof.
  revert w ws. induction s as [|c s IH]; intros w ws Hs.
  - inversion Hs. done.
  - destruct (decide (c = sep)) as [->|Hc].
    + rewrite split_on_cons_sep in Hs. inversion Hs. apply prefix_nil.
    + destruct (split_on_cons_other c s Hc) as (w' & ws' & Hw' & Hcs).
      rewrite Hcs in Hs. inversion Hs; subst. apply prefix_cons. eauto.
Qed.

(** Every later piece follows a separator. *)
Lemma split_on_tail s x :
  x ∈ tail (split_on sep s) → ∃ a b, s = a ++ sep :: x ++ b.
Proof.
  induction s as [|c s IH]; [by intros ?%elem_of_nil|].
  destruct (decide (c = sep)) as [->|Hc].
  - rewrite split_on_cons_sep. simpl tail.
    destruct (split_on sep s) as [|w ws] eqn:Hs; [by intros ?%elem_of_nil|].
    intros [->|Hx]%elem_of_cons.
    + destruct (split_on_head _ _ _ Hs) as [b ->]. by exists [], b.
    + destruct IH as (a & b & Hab); [done|].
      exists (sep :: a), b. by rewrite Hab.
  - destruct (split_on_cons_other c s Hc) as (w & ws & Hw & ->). simpl tail.
    intros Hx. destruct IH as (a & b & ->); [by rewrite Hw|]. by exists (c :: a), b.
Qed.

(** An occurrence of [sep :: p] starts a later piece. *)
Lemma infix_split_on p s :
  sep ∉ p → infix_of (sep :: p) s →
  ∃ x, x ∈ tail (split_on sep s) ∧ p `prefix_of` x.
Proof.
  intros Hp (a & b & ->). simpl app. rewrite split_on_app.
  destruct (split_on_app_free p b Hp) as (w & ws & _ & ->).
  exists (p ++ w). split; [|by apply prefix_app_r].
  destruct (split_on sep a) as [|h t] eqn:Ha.
  - simpl. destruct a; simpl in Ha; [done|].
    destruct (_ =? _); [done|]. by destruct (split_on sep a).
  - simpl. apply elem_of_app. right. apply elem_of_cons. by left.
Qed.

Lemma split_on_infix p s x :
  x ∈ tail (split_on sep s) → p `prefix_of` x → infix_of (sep :: p) s.
Proof.
  intros (a & b & ->)%split_on_tail [k ->].
  exists a, (k ++ b). simpl. by rewrite <- app_assoc.
Qed.
End Split.

Lemma split_on_nonempty sep s : split_on sep s ≠ [].
Proof.
  destruct s as [|c s]; simpl; [done|].
  destruct (c =? sep); [done|]. by destruct (split_on sep s).
Qed.

(** Words without [&] are the pieces between those of what precedes
    and of what follows them. *)
Lemma split_on_join_params b ws rest :
  Forall (λ w, amp ∉ w) ws →
  split_on amp (b ++ join_params ws (amp :: rest))
  = split_on amp b ++ ws ++ split_on amp rest.
Proof.
  intros Hws. revert b. induction Hws as [|w ws Hw Hws IH]; intros b; simpl.
  - apply split_on_app.
  - rewrite split_on_app, IH, (split_on_free amp w) by done. reflexivity.
Qed.

Lemma infix_of_app p a s b : infix_of p s → infix_of p (a ++ s ++ b).
Proof.
  intros (a' & b' & ->). exists (a ++ a'), (b' ++ b).
  by rewrite <- !app_assoc.
Qed.

Lemma is_prefix_spec p s : is_prefix p s = true ↔ p `prefix_of` s.
Proof.
  revert s. induction p as [|c p IH]; intros [|d s]; simpl.
  - split; [intros _; apply prefix_nil|done].
  - split; [intros _; apply prefix_nil|done].
  - split; [done|]. by intros ?%prefix_nil_not.
  - rewrite andb_true_iff, IH, N.eqb_eq. split.
    + intros [-> ?]. by apply prefix_cons.
    + intros Hp. split; [by eapply prefix_cons_inv_1|by eapply prefix_cons_inv_2].
Qed.

(** [includes] decides [infix_of]. *)
Lemma includes_spec s p : includes s p = true ↔ infix_of p s.
Proof.
  induction s as [|c s IH]; simpl.
  - rewrite orb_false_r, is_prefix_spec. split.
    + intros [k ->]. by exists [], k.
    + intros ([|??] & b & Hs); [|done]. by exists b.
  - rewrite orb_true_iff, is_prefix_spec, IH. split.
    + intros [[k ->]|(a & b & ->)]; [by exists [], k|by exists (c :: a), b].
    + intros ([|d a] & b & Hs); simpl in Hs.
      * left. by exists b.
      * inversion Hs; subst. right. by exists a, b.
Qed.

(** ** Requests and the base URL *)

Section Requests.
Context {V : Validator} {Response : Type} {T : Transport Response}.
Implicit Types (m : method) (this : WebResolver) (args : list JsValue).

(** A key that [isEmpty] takes for empty: a warning, and the client. *)
Lemma constructor_blank key :
  blank key = true →
  constructor key =
    ([EConsoleLog key_warning], Normal {| baseURL := api_prefix ++ ToString key |}).
Proof. intros Hk. unfold constructor. by rewrite (isEmpty_blank _ Hk). Qed.

(** Whenever the constructor returns, the base URL ends with the key. *)
Lemma constructor_baseURL key this :
  outcome (constructor key) = Normal this →
  baseURL this = api_prefix ++ ToString key.
Proof.
  unfold constructor. destruct (isEmpty_events key) as [[[]|e] ->];
    cbn; intros Hthis; inversion Hthis; done.
Qed.

(** A call makes at most one request, the one of the tables. *)
Lemma call_requests m this args :
  requests (events (call (Response:=Response) m this args)) = []
  ∨ requests (events (call (Response:=Response) m this args)) = [request_url m this args].
Proof.
  destruct (call_cases m this args) as [[msg ->]|[[e ->]| ->]]; by eauto.
Qed.


(** The request of a method starts with the base URL and a [&]. *)
Lemma request_url_prefix m this args :
  baseURL this ++ [amp] `prefix_of` request_url m this args.
Proof.
  exists (tail (format_param m) ++ js "&action=" ++ action_code m
            ++ js "&string=" ++ string_param m args ++ extra_params m args).
  unfold request_url. rewrite <- app_assoc. by destruct m.
Qed.

Lemma call_requests_prefix m this args :
  Forall (λ url, baseURL this ++ [amp] `prefix_of` url)
         (requests (events (call (Response:=Response) m this args))).
Proof.
  destruct (call_requests m this args) as [-> | ->]; [done|].
  apply Forall_singleton, request_url_prefix.
Qed.
End Requests.

(** The stand-in client is the one the constructor returns. *)
Lemma sample_client_constructed (key : string) :
  outcome (constructor (V:=Sample.validator) (JString (js key)))
  = Normal (Sample.client key).
Proof.
  unfold constructor.
  destruct (whitespace_only (js key)) eqn:Hk.
  - by rewrite (isEmpty_blank (JString (js key)) Hk).
  - by rewrite (isEmpty_text (VC:=sample_validator_contract) (js key) Hk).
Qed.

(** ** Parameters injected through the key and the arguments *)

(** An occurrence of [&] and a word in the endpoint followed by a key
    lies in the key. *)
Lemma infix_api_prefix (p K : jsstring) :
  amp ∉ p → infix_of (amp :: p) (api_prefix ++ K) ↔ infix_of (amp :: p) K.
Proof.
  intros Hp. split.
  - intros (x & Hx & Hpx)%infix_split_on; [|done].
    destruct (split_on_app_free amp api_prefix K) as (w & ws & HK & HpK); [by_eval|].
    rewrite HpK in Hx. apply (split_on_infix amp p K x); [by rewrite HK|done].
  - intros HK. rewrite <- (app_nil_r K). by apply infix_of_app.
Qed.

(** Where [&port=] can occur in the request of [portscan] without port:
    the template has none, so only inside the base URL or the url text. *)
Lemma portscan_port_occurrence (b s : jsstring) :
  infix_of (js "&port=") (b ++ js "&json&action=portscan&string=" ++ s)
  ↔ infix_of (js "&port=") b ∨ infix_of (js "&port=") s.
Proof.
  split.
  - intros Hin. change (js "&port=") with (amp :: js "port=") in *.
    apply infix_split_on in Hin as (x & Hx & Hp); [|by_eval].
    change (b ++ js "&json&action=portscan&string=" ++ s)
      with (b ++ join_params [js "json"; js "action=portscan"]
                   (amp :: js "string=" ++ s)) in Hx.
    rewrite split_on_join_params in Hx
      by (repeat (apply Forall_cons; split; [by_eval|]); apply Forall_nil_2).
    destruct (split_on_app_free amp (js "string=") s) as (w & ws & Hs & Hss); [by_eval|].
    rewrite Hss in Hx.
    destruct (split_on amp b) as [|h t] eqn:Hb; [by apply split_on_nonempty in Hb|].
    cbn [app tail] in Hx.
    apply elem_of_app in Hx as [Hx|Hx].
    + left. apply (split_on_infix amp _ b x); [by rewrite Hb|done].
    + apply elem_of_cons in Hx as [->|Hx]; [by apply prefix_cons_inv_1 in Hp|].
      apply elem_of_cons in Hx as [->|Hx]; [by apply prefix_cons_inv_1 in Hp|].
      apply elem_of_cons in Hx as [->|Hx]; [by apply prefix_cons_inv_1 in Hp|].
      right. apply (split_on_infix amp _ s x); [by rewrite Hs|done].
  - intros [Hin|Hin].
    + by apply (infix_of_app _ [] b).
    + rewrite app_assoc, <- (app_nil_r s). by apply infix_of_app.
Qed.







(** ** Reading the query of a request *)



















(** * The claims *)

(** C1. Every method other than [iplogger], called with a primary
    argument that is [undefined] (or missing), [null], the empty string or
    a string of whitespace only, resolves to the object
    [{data: {error: prompt}}] with the prompt of that method, and performs
    no event at all: no request is sent. *)
Theorem C1_empty_primary_argument
    {V : Validator} {Response : Type} {T : Transport Response}
    (m : method) (this : WebResolver) (args : list JsValue) :
  validated m = true →
  blank (arg 0 args) = true →
  events (call (Response:=Response) m this args) = []
  ∧ outcome (call (Response:=Response) m this args) = Normal (Synthetic (empty_prompt m)).
Proof.
  intros Hm Hv. by rewrite (call_empty m this args Hm (isEmpty_blank _ Hv)).
Qed.

Lemma C1_witness :
  (events (Sample.run Phone "KEY" [JString (js "  ")]) = []
   ∧ outcome (Sample.run Phone "KEY" [JString (js "  ")])
     = Normal (Synthetic (js "Please enter a phone number! (Use international phone format)")))
  ∧ (events (Sample.run Dns "KEY" []) = []
     ∧ outcome (Sample.run Dns "KEY" []) = Normal (Synthetic (js "Please enter a domain!"))).
Proof.
  split.
  - apply (C1_empty_primary_argument (V:=Sample.validator) (T:=Sample.axios) Phone);
      reflexivity.
  - apply (C1_empty_primary_argument (V:=Sample.validator) (T:=Sample.axios) Dns);
      reflexivity.
Defined.




(** C3, as stated, fails: the one request of [email2skype("a@b.com")]
    does not contain [&action=email2skython&string=a@b.com]. *)
Lemma C3_counterexample :
  events (Sample.run Email2skype "KEY" [JString (js "a@b.com")])
  = [EGet (js "https://webresolver.nl/api.php?key=KEY&json&action=email2skype&string=a@b.com")]
  ∧ ¬ infix_of (js "&action=email2skython&string=a@b.com")
        (js "https://webresolver.nl/api.php?key=KEY&json&action=email2skype&string=a@b.com").
Proof.
  split; [reflexivity|].
  rewrite <- includes_spec. vm_compute. discriminate.
Qed.

(** C3, as the code has it.  [email2skype] and [isTempEmail], given a
    string that is not blank and that [validator.isEmail] rejects, resolve
    to the email error object without any event; given one that
    [validator.isEmail] accepts, [email2skype] sends one request, whose
    URL is the base URL followed by [&json&action=email2skype&string=] and
    the address, so it contains [&action=email2skype&string=<address>]. *)
Theorem C3_email_format
    {V : Validator} {VC : ValidatorContract V}
    {Response : Type} {T : Transport Response}
    (this : WebResolver) (s : jsstring) (rest : list JsValue) :
  whitespace_only s = false →
  (validator_isEmail (JString s) = Normal false →
     call (Response:=Response) Email2skype this (JString s :: rest)
     = ([], Normal (Synthetic (js "Please enter a valid email address!")))
     ∧ call (Response:=Response) IsTempEmail this (JString s :: rest)
       = ([], Normal (Synthetic (js "Please enter a valid email address!"))))
  ∧ (validator_isEmail (JString s) = Normal true →
     events (call (Response:=Response) Email2skype this (JString s :: rest))
     = [EGet (baseURL this ++ js "&json&action=email2skype&string=" ++ s)]
     ∧ infix_of (js "&action=email2skype&string=" ++ s)
         (baseURL this ++ js "&json&action=email2skype&string=" ++ s)).
Proof.
  intros Hs. pose proof (isEmpty_text s Hs) as He. split; intros Hmail.
  - split.
    + rewrite (call_text Email2skype this (JString s :: rest) eq_refl He).
      cbn [format_of format_check arg nth]. by rewrite Hmail.
    + rewrite (call_text IsTempEmail this (JString s :: rest) eq_refl He).
      cbn [format_of format_check arg nth]. by rewrite Hmail.
  - split.
    + rewrite (call_text Email2skype this (JString s :: rest) eq_refl He).
      cbn [format_of format_check arg nth]. rewrite Hmail.
      unfold request_url. cbn [extra_params string_param arg nth ToString].
      by rewrite app_nil_r.
    + exists (baseURL this ++ js "&json"), []. by rewrite app_nil_r, <- app_assoc.
Qed.

Lemma C3_witness :
  Sample.run Email2skype "KEY" [JString (js "not-an-email")]
  = ([], Normal (Synthetic (js "Please enter a valid email address!")))
  ∧ Sample.run IsTempEmail "KEY" [JString (js "bad")]
    = ([], Normal (Synthetic (js "Please enter a valid email address!")))
  ∧ events (Sample.run Email2skype "KEY" [JString (js "a@b.com")])
    = [EGet (js "https://webresolver.nl/api.php?key=KEY&json&action=email2skype&string=a@b.com")].
Proof.
  split; [|split].
  - apply (C3_email_format (VC:=sample_validator_contract) (T:=Sample.axios)
             (Sample.client "KEY") (js "not-an-email") []); reflexivity.
  - apply (C3_email_format (VC:=sample_validator_contract) (T:=Sample.axios)
             (Sample.client "KEY") (js "bad") []); reflexivity.
  - apply (C3_email_format (VC:=sample_validator_contract) (T:=Sample.axios)
             (Sample.client "KEY") (js "a@b.com") []); reflexivity.
Defined.

(** C4, at the call without arguments.  [iplogger] validates nothing and
    always sends its request; called without arguments, the URL is the
    base URL followed by [&json&action=iplogger&string=&logger=]: the
    values of [string] and of [logger] are both empty, and the URL does
    not end with [logger=youtube]. *)
Theorem C4_iplogger_defaults
    {V : Validator} {Response : Type} {T : Transport Response}
    (this : WebResolver) :
  (∀ args : list JsValue,
     events (call (Response:=Response) Iplogger this args)
     = [EGet (baseURL this ++ js "&json&action=iplogger&string="
                ++ ToString (default_param (JString []) (arg 1 args))
                ++ js "&logger=" ++ ToString (default_param (JString []) (arg 0 args)))])
  ∧ events (call (Response:=Response) Iplogger this [])
    = [EGet (baseURL this ++ js "&json&action=iplogger&string=&logger=")]
  ∧ ¬ (js "logger=youtube"
       `suffix_of` baseURL this ++ js "&json&action=iplogger&string=&logger=").
Proof.
  split; [done|]. split; [done|].
  intros [k Hk]. apply (f_equal last) in Hk.
  change (js "&json&action=iplogger&string=&logger=")
    with (js "&json&action=iplogger&string=&logger" ++ [equals]) in Hk.
  change (js "logger=youtube") with (js "logger=youtub" ++ [101]) in Hk.
  rewrite !app_assoc, !last_snoc in Hk. discriminate.
Qed.

(** C5. [ip2skype] and [ip2websites], given a string that is not blank
    and that [validator.isIP] rejects, resolve to the IP error object
    without any event; given one that [validator.isIP] accepts,
    [ip2skype] sends one request, whose URL is the base URL followed by
    [&json&action=ip2skype&string=] and the address, so it ends with
    [&action=ip2skype&string=<address>]. *)
Theorem C5_ip_format
    {V : Validator} {VC : ValidatorContract V}
    {Response : Type} {T : Transport Response}
    (this : WebResolver) (s : jsstring) (rest : list JsValue) :
  whitespace_only s = false →
  (validator_isIP (JString s) = Normal false →
     call (Response:=Response) Ip2skype this (JString s :: rest)
     = ([], Normal (Synthetic (js "Please enter a valid IP address!")))
     ∧ call (Response:=Response) Ip2websites this (JString s :: rest)
       = ([], Normal (Synthetic (js "Please enter a valid IP address!"))))
  ∧ (validator_isIP (JString s) = Normal true →
     events (call (Response:=Response) Ip2skype this (JString s :: rest))
     = [EGet (baseURL this ++ js "&json&action=ip2skype&string=" ++ s)]
     ∧ js "&action=ip2skype&string=" ++ s
       `suffix_of` baseURL this ++ js "&json&action=ip2skype&string=" ++ s).
Proof.
  intros Hs. pose proof (isEmpty_text s Hs) as He. split; intros Hip.
  - split.
    + rewrite (call_text Ip2skype this (JString s :: rest) eq_refl He).
      cbn [format_of format_check arg nth]. by rewrite Hip.
    + rewrite (call_text Ip2websites this (JString s :: rest) eq_refl He).
      cbn [format_of format_check arg nth]. by rewrite Hip.
  - split.
    + rewrite (call_text Ip2skype this (JString s :: rest) eq_refl He).
      cbn [format_of format_check arg nth]. rewrite Hip.
      unfold request_url. cbn [extra_params string_param arg nth ToString].
      by rewrite app_nil_r.
    + exists (baseURL this ++ js "&json"). by rewrite <- app_assoc.
Qed.

Lemma C5_witness :
  Sample.run Ip2skype "KEY" [JString (js "not-an-ip")]
  = ([], Normal (Synthetic (js "Please enter a valid IP address!")))
  ∧ Sample.run Ip2websites "KEY" [JString (js "999.999.999.999")]
    = ([], Normal (Synthetic (js "Please enter a valid IP address!")))
  ∧ events (Sample.run Ip2skype "KEY" [JString (js "8.8.8.8")])
    = [EGet (js "https://webresolver.nl/api.php?key=KEY&json&action=ip2skype&string=8.8.8.8")].
Proof.
  split; [|split].
  - apply (C5_ip_format (VC:=sample_validator_contract) (T:=Sample.axios)
             (Sample.client "KEY") (js "not-an-ip") []); reflexivity.
  - apply (C5_ip_format (VC:=sample_validator_contract) (T:=Sample.axios)
             (Sample.client "KEY") (js "999.999.999.999") []); reflexivity.
  - apply (C5_ip_format (VC:=sample_validator_contract) (T:=Sample.axios)
             (Sample.client "KEY") (js "8.8.8.8") []); reflexivity.
Defined.

(** C6, as stated, fails: the url text is concatenated as it is, so a
    url that carries [&port=] puts it into the URL although no port
    argument is given. *)
Lemma C6_counterexample :
  events (Sample.run Portscan "KEY" [JString (js "example.com&port=1")])
  = [EGet (js "https://webresolver.nl/api.php?key=KEY&json&action=portscan&string=example.com&port=1")]
  ∧ infix_of (js "&port=")
      (js "https://webresolver.nl/api.php?key=KEY&json&action=portscan&string=example.com&port=1").
Proof.
  split; [reflexivity|]. apply includes_spec. reflexivity.
Qed.

(** C6, as the code has it.  For a client the constructor returned:
    [portscan] with a url text that is not blank and no port (the argument
    missing, [undefined] or [null]) sends one request, to the base URL
    followed by [&json&action=portscan&string=] and the url text; nothing
    is appended, and [&port=] occurs in that URL exactly when the key or
    the url text contains it.  With a port, [&port=] and the port are
    appended, so the URL ends with them: with [&port=80] for the port 80. *)
Theorem C6_portscan_port
    {V : Validator} {VC : ValidatorContract V}
    {Response : Type} {T : Transport Response}
    (key : JsValue) (this : WebResolver) (s : jsstring) :
  outcome (constructor key) = Normal this →
  whitespace_only s = false →
  (∀ args, args ∈ [[JString s]; [JString s; JUndefined]; [JString s; JNull]] →
     events (call (Response:=Response) Portscan this args)
     = [EGet (baseURL this ++ js "&json&action=portscan&string=" ++ s)])
  ∧ (infix_of (js "&port=") (baseURL this ++ js "&json&action=portscan&string=" ++ s)
     ↔ infix_of (js "&port=") (ToString key) ∨ infix_of (js "&port=") s)
  ∧ (∀ port, port ≠ JUndefined → port ≠ JNull →
       events (call (Response:=Response) Portscan this [JString s; port])
       = [EGet (baseURL this ++ js "&json&action=portscan&string=" ++ s
                  ++ js "&port=" ++ ToString port)]
       ∧ js "&port=" ++ ToString port
         `suffix_of` baseURL this ++ js "&json&action=portscan&string=" ++ s
                       ++ js "&port=" ++ ToString port)
  ∧ events (call (Response:=Response) Portscan this [JString s; JNumber 80])
    = [EGet (baseURL this ++ js "&json&action=portscan&string=" ++ s ++ js "&port=80")].
Proof.
  intros Hthis%constructor_baseURL Hs. pose proof (isEmpty_text s Hs) as He.
  assert (Hcall : ∀ rest,
    events (call (Response:=Response) Portscan this (JString s :: rest))
    = [EGet (request_url Portscan this (JString s :: rest))]).
  { intros rest. by rewrite (call_text Portscan this (JString s :: rest) eq_refl He). }
  split; [|split; [|split]].
  - intros args Hargs. rewrite !elem_of_cons, elem_of_nil in Hargs.
    destruct Hargs as [->|[->|[->|[]]]]; rewrite Hcall; unfold request_url;
      cbn [extra_params string_param arg nth ToString]; by rewrite app_nil_r.
  - rewrite portscan_port_occurrence, Hthis.
    change (js "&port=") with (amp :: js "port=").
    by rewrite infix_api_prefix by by_eval.
  - intros port Hu Hn. split.
    + rewrite Hcall. by destruct port.
    + exists (baseURL this ++ js "&json&action=portscan&string=" ++ s).
      by rewrite <- !app_assoc.
  - by rewrite Hcall.
Qed.

Lemma C6_witness :
  events (Sample.run Portscan "KEY" [JString (js "example.com")])
  = [EGet (js "https://webresolver.nl/api.php?key=KEY&json&action=portscan&string=example.com")]
  ∧ ¬ infix_of (js "&port=")
        (js "https://webresolver.nl/api.php?key=KEY&json&action=portscan&string=example.com")
  ∧ events (Sample.run Portscan "KEY" [JString (js "example.com"); JNumber 80])
    = [EGet (js "https://webresolver.nl/api.php?key=KEY&json&action=portscan&string=example.com&port=80")].
Proof.
  destruct (C6_portscan_port (VC:=sample_validator_contract) (T:=Sample.axios)
              (JString (js "KEY")) (Sample.client "KEY") (js "example.com"))
    as (H0 & Hport & _ & H80); [reflexivity..|].
  split; [|split; [|exact H80]].
  - apply (H0 [JString (js "example.com")]). apply elem_of_cons. by left.
  - intros Hin. apply Hport in Hin as [Hin|Hin];
      apply includes_spec in Hin; vm_compute in Hin; discriminate Hin.
Defined.

(** C7. A validated method whose primary argument is a string that is
    not blank and passes the format check of the method (IP address for
    [ip2skype] and [ip2websites], email address for [email2skype] and
    [isTempEmail], none otherwise) sends one request, to the base URL
    followed by [&json] ([&html=0] for [headers], [whois] and [ping]),
    [&action=<code>] and [&string=<primary>]; only [portscan] with a port
    puts something after it, and nothing follows when the primary
    argument is the only one.  The method settles as the transport does:
    its response as it is, or its failure. *)
Theorem C7_request_url
    {V : Validator} {VC : ValidatorContract V}
    {Response : Type} {T : Transport Response}
    (m : method) (this : WebResolver) (s : jsstring) (rest : list JsValue) :
  validated m = true →
  whitespace_only s = false →
  format_check (format_of m) (JString s) = Normal true →
  let url :=
    baseURL this ++ format_param m ++ js "&action=" ++ action_code m
      ++ js "&string=" ++ s ++ extra_params m (JString s :: rest) in
  events (call m this (JString s :: rest)) = [EGet url]
  ∧ outcome (call m this (JString s :: rest))
    = match transport url with
      | Normal r => Normal (Received r)
      | Throw e => Throw e
      end
  ∧ format_param m
    = (if bool_decide (m ∈ [Headers; Whois; Ping]) then js "&html=0" else js "&json")
  ∧ (m ≠ Portscan → extra_params m (JString s :: rest) = [])
  ∧ extra_params m [JString s] = [].
Proof.
  intros Hm Hs Hf url.
  rewrite (call_text m this (JString s :: rest) Hm (isEmpty_text s Hs)).
  cbn [arg nth]. rewrite Hf.
  replace (request_url m this (JString s :: rest)) with url
    by (by destruct m).
  repeat split.
  - by destruct m.
  - by destruct m.
  - by destruct m.
Qed.

Lemma C7_witness :
  events (Sample.run Whois "KEY" [JString (js "example.com")])
  = [EGet (js "https://webresolver.nl/api.php?key=KEY&html=0&action=whois&string=example.com")]
  ∧ outcome (Sample.run Whois "KEY" [JString (js "example.com")])
    = Normal (Received (js "ok")).
Proof.
  destruct (C7_request_url (VC:=sample_validator_contract) (T:=Sample.axios)
              Whois (Sample.client "KEY") (js "example.com") [])
    as (He & Ho & _); [reflexivity..|].
  split; [exact He|exact Ho].
Defined.

(** C8. With a key that is the empty string or a string of whitespace
    only, the constructor returns normally after logging the warning, the
    base URL is the endpoint followed by the key as given, and every
    request of every method starts with that base URL and the [&] of the
    next parameter: for the empty key, with [...api.php?key=&]. *)
Theorem C8_blank_key
    {V : Validator} {Response : Type} {T : Transport Response}
    (key : jsstring) :
  whitespace_only key = true →
  constructor (JString key)
  = ([EConsoleLog key_warning],
     Normal {| baseURL := js "https://webresolver.nl/api.php?key=" ++ key |})
  ∧ ∀ (m : method) (args : list JsValue),
      Forall (λ url, js "https://webresolver.nl/api.php?key=" ++ key ++ js "&" `prefix_of` url)
        (requests (events (call (Response:=Response) m
           {| baseURL := js "https://webresolver.nl/api.php?key=" ++ key |} args))).
Proof.
  intros Hk. split.
  - by apply (constructor_blank (JString key)).
  - intros m args.
    pose proof (call_requests_prefix (Response:=Response) m
      {| baseURL := js "https://webresolver.nl/api.php?key=" ++ key |} args) as Hp.
    cbn [baseURL] in Hp. by rewrite <- app_assoc in Hp.
Qed.

Lemma C8_witness :
  constructor (V:=Sample.validator) (JString (js ""))
  = ([EConsoleLog key_warning],
     Normal {| baseURL := js "https://webresolver.nl/api.php?key=" |})
  ∧ ∀ (m : method) (args : list JsValue),
      Forall (λ url, js "https://webresolver.nl/api.php?key=&" `prefix_of` url)
        (requests (events (Sample.run m "" args))).
Proof.
  apply (C8_blank_key (V:=Sample.validator) (T:=Sample.axios) (js "")).
  reflexivity.
Defined.

(** C9. Under the contract of [validator] (its functions throw a
    [TypeError] on a value that is not a string), a primary argument that
    is neither [undefined], [null] nor a string, a number for one, makes
    [isEmpty] throw, and with it every validated method: the method sends
    no request and returns no error object. *)
Theorem C9_non_string_throws
    {V : Validator} {VC : ValidatorContract V}
    {Response : Type} {T : Transport Response}
    (v : JsValue) :
  blank v = false →
  typeof_string v = false →
  ∃ msg,
    isEmpty v = ([], Throw (TypeError msg))
    ∧ ∀ (m : method) (this : WebResolver) (rest : list JsValue),
        validated m = true →
        call (Response:=Response) m this (v :: rest) = ([], Throw (TypeError msg)).
Proof.
  intros Hb Hv. destruct (isEmpty_not_string v Hb Hv) as [msg Hmsg].
  exists msg. split; [done|]. intros m this rest Hm. by apply call_throw.
Qed.

Lemma C9_witness :
  ∃ msg,
    isEmpty (V:=Sample.validator) (JNumber 5) = ([], Throw (TypeError msg))
    ∧ ∀ (m : method) (this : WebResolver) (rest : list JsValue),
        validated m = true →
        call (V:=Sample.validator) (T:=Sample.axios) m this (JNumber 5 :: rest)
        = ([], Throw (TypeError msg)).
Proof.
  apply (C9_non_string_throws (VC:=sample_validator_contract) (T:=Sample.axios) (JNumber 5));
    reflexivity.
Defined.

(** C10. With the key [undefined] or [null] the constructor logs the
    warning and returns a client whose base URL ends with the text
    [undefined] or [null]; every request of every method then starts with
    [...api.php?key=undefined&] or [...api.php?key=null&]. *)
Theorem C10_undefined_or_null_key
    {V : Validator} {Response : Type} {T : Transport Response} :
  (constructor JUndefined
   = ([EConsoleLog key_warning],
      Normal {| baseURL := js "https://webresolver.nl/api.php?key=undefined" |})
   ∧ ∀ (m : method) (args : list JsValue),
       Forall (λ url, js "https://webresolver.nl/api.php?key=undefined&" `prefix_of` url)
         (requests (events (call (Response:=Response) m
            {| baseURL := js "https://webresolver.nl/api.php?key=undefined" |} args))))
  ∧ (constructor JNull
     = ([EConsoleLog key_warning],
        Normal {| baseURL := js "https://webresolver.nl/api.php?key=null" |})
     ∧ ∀ (m : method) (args : list JsValue),
         Forall (λ url, js "https://webresolver.nl/api.php?key=null&" `prefix_of` url)
           (requests (events (call (Response:=Response) m
              {| baseURL := js "https://webresolver.nl/api.php?key=null" |} args)))).
Proof.
  split; (split; [by apply constructor_blank|]); intros m args.
  - apply (call_requests_prefix (Response:=Response) m
      {| baseURL := js "https://webresolver.nl/api.php?key=undefined" |} args).
  - apply (call_requests_prefix (Response:=Response) m
      {| baseURL := js "https://webresolver.nl/api.php?key=null" |} args).
Qed.

(** * Further properties of the code *)

(** ** [isEmpty] and the constructor *)

(** On a string, [isEmpty] is the whitespace test. *)
Lemma isEmpty_string {V : Validator} {VC : ValidatorContract V} (s : jsstring) :
  isEmpty (JString s) = ([], Normal (whitespace_only s)).
Proof.
  destruct (whitespace_only s) eqn:Hs.
  - by apply (isEmpty_blank (JString s)).
  - by apply isEmpty_text.
Qed.

(** X1. Under the contract of [validator], [isEmpty] answers [true]
    exactly on [undefined], [null] and the strings of whitespace only; on
    a string it never throws and answers whether the string is whitespace
    only, so the [validator.isEmpty] operand never changes the verdict on
    a string. *)
Theorem X1_isEmpty_verdict {V : Validator} {VC : ValidatorContract V} :
  (∀ s : jsstring, isEmpty (JString s) = ([], Normal (whitespace_only s)))
  ∧ (∀ v : JsValue, outcome (isEmpty v) = Normal true ↔ blank v = true).
Proof.
  pose proof (@isEmpty_string V VC) as Hstr.
  split; [done|]. intros v. split.
  - intros Hv. destruct (blank v) eqn:Hb; [done|].
    destruct v as [| |b|n|s]; try done.
    + destruct (isEmpty_not_string (JBool b)) as [msg Hmsg]; [done..|].
      by rewrite Hmsg in Hv.
    + destruct (isEmpty_not_string (JNumber n)) as [msg Hmsg]; [done..|].
      by rewrite Hmsg in Hv.
    + rewrite Hstr in Hv. simpl in Hb. rewrite Hb in Hv. done.
  - intros Hb. by rewrite (isEmpty_blank v Hb).
Qed.

Lemma X1_witness :
  isEmpty (V:=Sample.validator) (JString (js " a b ")) = ([], Normal false)
  ∧ (outcome (isEmpty (V:=Sample.validator) (JNumber 0)) = Normal true
     ↔ blank (JNumber 0) = true).
Proof.
  destruct (X1_isEmpty_verdict (VC:=sample_validator_contract)) as [Hs Hv].
  split; [apply (Hs (js " a b "))|apply (Hv (JNumber 0))].
Defined.

(** X2. Under the contract of [validator], the only event the
    constructor can perform is the warning, and it logs it exactly when
    the key is [undefined], [null] or a string of whitespace only: a key
    with any other character is accepted silently, and no request is ever
    sent at construction. *)
Theorem X2_constructor_events {V : Validator} {VC : ValidatorContract V}
    (key : JsValue) :
  events (constructor key) = (if blank key then [EConsoleLog key_warning] else []).
Proof.
  destruct (blank key) eqn:Hb.
  - by rewrite (constructor_blank key Hb).
  - unfold constructor. destruct key as [| |b|n|s]; try done.
    + destruct (isEmpty_not_string (JBool b)) as [msg ->]; done.
    + destruct (isEmpty_not_string (JNumber n)) as [msg ->]; done.
    + by rewrite (isEmpty_text s Hb).
Qed.

Lemma X2_witness :
  events (constructor (V:=Sample.validator) (JString (js "my key"))) = []
  ∧ events (constructor (V:=Sample.validator) (JString (js " "))) = [EConsoleLog key_warning].
Proof.
  split.
  - apply (X2_constructor_events (VC:=sample_validator_contract) (JString (js "my key"))).
  - apply (X2_constructor_events (VC:=sample_validator_contract) (JString (js " "))).
Defined.

(** X3. Under the contract of [validator], the constructor returns a
    client exactly when the key is [undefined], [null] or a string, and
    the base URL of that client is the endpoint followed by the text of
    the key; with any other key, a number for one, it throws and there is
    no client. *)
Theorem X3_constructor_returns {V : Validator} {VC : ValidatorContract V}
    (key : JsValue) (this : WebResolver) :
  outcome (constructor key) = Normal this
  ↔ (blank key = true ∨ typeof_string key = true)
    ∧ this = {| baseURL := js "https://webresolver.nl/api.php?key=" ++ ToString key |}.
Proof.
  split.
  - intros Hthis. split.
    + destruct (blank key) eqn:Hb; [by left|]. right.
      destruct (typeof_string key) eqn:Hs; [done|].
      destruct (isEmpty_not_string key Hb Hs) as [msg Hmsg].
      unfold constructor in Hthis. by rewrite Hmsg in Hthis.
    + apply constructor_baseURL in Hthis. destruct this as [b]. simpl in Hthis.
      by rewrite Hthis.
  - intros [[Hb|Hs] ->].
    + by rewrite (constructor_blank key Hb).
    + destruct key as [| |b|n|s]; try done.
      unfold constructor. rewrite isEmpty_string. by destruct (whitespace_only s).
Qed.

Lemma X3_witness :
  outcome (constructor (V:=Sample.validator) (JString (js "KEY")))
  = Normal {| baseURL := js "https://webresolver.nl/api.php?key=KEY" |}
  ∧ ∀ this, outcome (constructor (V:=Sample.validator) (JNumber 12345)) ≠ Normal this.
Proof.
  split.
  - apply (X3_constructor_returns (VC:=sample_validator_contract) (JString (js "KEY"))).
    split; [by right|reflexivity].
  - intros this Hthis.
    apply (X3_constructor_returns (VC:=sample_validator_contract) (JNumber 12345))
      in Hthis as [[Hb|Hs] _]; discriminate.
Defined.

(** ** How a method can end *)

Section Endings.
Context {V : Validator} {Response : Type} {T : Transport Response}.
Implicit Types (m : method) (this : WebResolver) (args : list JsValue).

(** The ways a call can end, with what led there. *)
Lemma call_endings m this args :
  (validated m = true
   ∧ call m this args = ([], Normal (Synthetic (empty_prompt m)))
   ∧ (isEmpty (arg 0 args) = ([], Normal true)
      ∨ isEmpty (arg 0 args) = ([], Normal false)
        ∧ format_check (format_of m) (arg 0 args) = Normal false))
  ∨ (∃ e, validated m = true
          ∧ call (Response:=Response) m this args = ([], Throw e)
          ∧ (isEmpty (arg 0 args) = ([], Throw e)
             ∨ isEmpty (arg 0 args) = ([], Normal false)
               ∧ format_check (format_of m) (arg 0 args) = Throw e))
  ∨ call m this args = axios_get (request_url m this args).
Proof.
  destruct (validated m) eqn:Hm.
  - destruct (isEmpty_events (arg 0 args)) as [[[]|e] He].
    + left. rewrite (call_empty m this args Hm He). auto.
    + rewrite (call_text _ _ _ Hm He).
      destruct (format_check _ _) as [[]|e] eqn:Hf.
      * by right; right.
      * left. auto.
      * right; left. exists e. auto.
    + right; left. exists e. rewrite (call_throw m this args e Hm He). auto.
  - destruct m; try discriminate Hm. right; right. apply call_iplogger.
Qed.
End Endings.

(** X4. Whenever a method resolves to a synthetic error object, the
    method is a validated one, no event was performed, and the message is
    the prompt of the method, whatever the argument: the primary argument
    was found empty or failed the format check, and the two cases give
    the same object. *)
Theorem X4_synthetic_error
    {V : Validator} {Response : Type} {T : Transport Response}
    (m : method) (this : WebResolver) (args : list JsValue) (msg : jsstring) :
  outcome (call (Response:=Response) m this args) = Normal (Synthetic msg) →
  validated m = true
  ∧ msg = empty_prompt m
  ∧ events (call (Response:=Response) m this args) = []
  ∧ (outcome (isEmpty (arg 0 args)) = Normal true
     ∨ format_check (format_of m) (arg 0 args) = Normal false).
Proof.
  intros Hout.
  destruct (call_endings (Response:=Response) m this args)
    as [(Hm & Hcall & Hwhy)|[(e & Hm & Hcall & Hwhy)|Hcall]];
    rewrite Hcall in Hout |- *.
  - inversion Hout. repeat split; try done.
    destruct Hwhy as [He|[_ Hf]]; [left; by rewrite He|by right].
  - done.
  - unfold axios_get, outcome in Hout. simpl in Hout. by destruct (transport _).
Qed.

Lemma X4_witness :
  validated Ip2skype = true
  ∧ js "Please enter a valid IP address!" = empty_prompt Ip2skype
  ∧ events (Sample.run Ip2skype "KEY" [JString (js "not-an-ip")]) = []
  ∧ (outcome (isEmpty (V:=Sample.validator) (arg 0 [JString (js "not-an-ip")])) = Normal true
     ∨ @format_check Sample.validator (format_of Ip2skype)
         (arg 0 [JString (js "not-an-ip")]) = Normal false).
Proof.
  apply (X4_synthetic_error (V:=Sample.validator) (T:=Sample.axios)
           Ip2skype (Sample.client "KEY") [JString (js "not-an-ip")]).
  reflexivity.
Defined.

(** X5. A method resolves to a response only by way of the transport:
    it then sent exactly one request, the one of the method, and the
    response is the one the transport gave to that URL. *)
Theorem X5_response_from_transport
    {V : Validator} {Response : Type} {T : Transport Response}
    (m : method) (this : WebResolver) (args : list JsValue) (r : Response) :
  outcome (call m this args) = Normal (Received r) →
  events (call (Response:=Response) m this args) = [EGet (request_url m this args)]
  ∧ transport (request_url m this args) = Normal r.
Proof.
  intros Hout.
  destruct (call_endings (Response:=Response) m this args)
    as [(Hm & Hcall & Hwhy)|[(e & Hm & Hcall & Hwhy)|Hcall]];
    rewrite Hcall in Hout |- *; try done.
  unfold axios_get, outcome in Hout. simpl in Hout. split; [done|].
  destruct (transport _); by inversion Hout.
Qed.

Lemma X5_witness :
  events (Sample.run GeoIp "KEY" [JString (js "example.com")])
  = [EGet (request_url GeoIp (Sample.client "KEY") [JString (js "example.com")])]
  ∧ transport (Transport:=Sample.axios)
      (request_url GeoIp (Sample.client "KEY") [JString (js "example.com")])
    = Normal (js "ok").
Proof.
  apply (X5_response_from_transport (V:=Sample.validator) (T:=Sample.axios)
           GeoIp (Sample.client "KEY") [JString (js "example.com")]).
  reflexivity.
Defined.

(** X6. A method rejects only with an error that is not its own: either
    [validator] threw, in [isEmpty] or in the format check, and no event
    was performed; or the one request of the method was sent and the
    transport failed with that error.  Nothing is caught or retried. *)
Theorem X6_rejection_origin
    {V : Validator} {Response : Type} {T : Transport Response}
    (m : method) (this : WebResolver) (args : list JsValue) (e : JsError) :
  outcome (call (Response:=Response) m this args) = Throw e →
  (validated m = true
   ∧ events (call (Response:=Response) m this args) = []
   ∧ (outcome (isEmpty (arg 0 args)) = Throw e
      ∨ format_check (format_of m) (arg 0 args) = Throw e))
  ∨ (events (call (Response:=Response) m this args) = [EGet (request_url m this args)]
     ∧ transport (request_url m this args) = Throw e).
Proof.
  intros Hout.
  destruct (call_endings (Response:=Response) m this args)
    as [(Hm & Hcall & Hwhy)|[(e' & Hm & Hcall & Hwhy)|Hcall]];
    rewrite Hcall in Hout |- *; try done.
  - inversion Hout; subst e'. left. repeat split; try done.
    destruct Hwhy as [He|[_ Hf]]; [left; by rewrite He|by right].
  - right. unfold axios_get, outcome in Hout. simpl in Hout. split; [done|].
    destruct (transport _); by inversion Hout.
Qed.

Lemma X6_witness :
  (validated SkypeResolve = true
   ∧ events (Sample.run SkypeResolve "KEY" [JString (js "john doe")]) = []
   ∧ (outcome (isEmpty (V:=Sample.validator) (arg 0 [JString (js "john doe")]))
      = Throw (TransportError (js "Bad Request"))
      ∨ @format_check Sample.validator (format_of SkypeResolve)
          (arg 0 [JString (js "john doe")])
        = Throw (TransportError (js "Bad Request"))))
  ∨ (events (Sample.run SkypeResolve "KEY" [JString (js "john doe")])
     = [EGet (request_url SkypeResolve (Sample.client "KEY") [JString (js "john doe")])]
     ∧ transport (Transport:=Sample.axios)
         (request_url SkypeResolve (Sample.client "KEY") [JString (js "john doe")])
       = Throw (TransportError (js "Bad Request"))).
Proof.
  apply (X6_rejection_origin (V:=Sample.validator) (T:=Sample.axios)
           SkypeResolve (Sample.client "KEY") [JString (js "john doe")]).
  reflexivity.
Defined.

(** X7. No method writes to the console, and none sends more than one
    request: the events of a call are either none or the single request
    of the method, also when the transport fails. *)
Theorem X7_at_most_one_request
    {V : Validator} {Response : Type} {T : Transport Response}
    (m : method) (this : WebResolver) (args : list JsValue) :
  events (call (Response:=Response) m this args) = []
  ∨ events (call (Response:=Response) m this args) = [EGet (request_url m this args)].
Proof.
  destruct (call_endings (Response:=Response) m this args)
    as [(_ & -> & _)|[(e & _ & -> & _)| ->]]; by auto.
Qed.

(** ** What a request URL tells *)

(** The URL of the request of a client the constructor returned. *)
Lemma request_url_constructed {V : Validator} key this m args :
  outcome (constructor key) = Normal this →
  request_url m this args
  = api_prefix ++ ToString key ++ format_param m ++ js "&action=" ++ action_code m
      ++ js "&string=" ++ string_param m args ++ extra_params m args.
Proof.
  intros Hthis%constructor_baseURL. unfold request_url.
  by rewrite Hthis, <- app_assoc.
Qed.

(** The request a call sent is the one of the tables. *)
Lemma call_event_url {V : Validator} {Response : Type} {T : Transport Response}
    m this args url :
  events (call (Response:=Response) m this args) = [EGet url] →
  url = request_url m this args.
Proof.
  destruct (call_cases (Response:=Response) m this args) as [[? ->]|[[e ->]| ->]];
    [done..|]. intros Hev. by inversion Hev.
Qed.

(** The second word of the query of a request is its action. *)
Lemma action_word m (rest : jsstring) :
  before_first amp (after_first amp (tail
    (format_param m ++ js "&action=" ++ action_code m ++ js "&string=" ++ rest)))
  = js "action=" ++ action_code m.
Proof. by destruct m. Qed.

(** No two methods share an action code. *)
Lemma action_code_inj m m' : action_code m = action_code m' → m = m'.
Proof.
  destruct m, m'; intros Hc; try reflexivity; vm_compute in Hc; discriminate Hc.
Qed.

(** X8. No key and no argument can send a request elsewhere: for a
    client the constructor returned, what precedes the first [?] of every
    request URL is [https://webresolver.nl/api.php]. *)
Theorem X8_endpoint_fixed
    {V : Validator} {Response : Type} {T : Transport Response}
    (key : JsValue) (this : WebResolver) (m : method) (args : list JsValue) :
  outcome (constructor key) = Normal this →
  Forall (λ url, before_first qmark url = js "https://webresolver.nl/api.php")
    (requests (events (call (Response:=Response) m this args))).
Proof.
  intros Hthis.
  destruct (call_requests (Response:=Response) m this args) as [-> | ->];
    [apply Forall_nil_2|].
  apply Forall_singleton. by rewrite (request_url_constructed key this m args Hthis).
Qed.

Lemma X8_witness :
  Forall (λ url, before_first qmark url = js "https://webresolver.nl/api.php")
    (requests (events (Sample.run Screenshot "K?x=1&y=/../" [JString (js "http://other.example/?a=b")]))).
Proof.
  apply (X8_endpoint_fixed (V:=Sample.validator) (T:=Sample.axios)
           (JString (js "K?x=1&y=/../")) (Sample.client "K?x=1&y=/../") Screenshot
           [JString (js "http://other.example/?a=b")]).
  reflexivity.
Defined.

(** X9. The URL of a request tells which method sent it: on one client,
    two calls that send the same URL are calls of the same method,
    whatever their arguments. *)
Theorem X9_url_determines_method
    {V : Validator} {Response : Type} {T : Transport Response}
    (this : WebResolver) (m m' : method) (args args' : list JsValue) (url : jsstring) :
  events (call (Response:=Response) m this args) = [EGet url] →
  events (call (Response:=Response) m' this args') = [EGet url] →
  m = m'.
Proof.
  intros Hm%call_event_url Hm'%call_event_url. rewrite Hm in Hm'.
  unfold request_url in Hm'. apply app_inv_head in Hm'.
  apply (f_equal (λ x, before_first amp (after_first amp (tail x)))) in Hm'.
  rewrite !action_word in Hm'. apply app_inv_head in Hm'.
  by apply action_code_inj.
Qed.

Lemma X9_witness : Dns = Dns.
Proof.
  apply (X9_url_determines_method (V:=Sample.validator) (T:=Sample.axios)
           (Sample.client "KEY") Dns Dns [JString (js "example.com")]
           [JString (js "example.com"); JNumber 1]
           (js "https://webresolver.nl/api.php?key=KEY&json&action=dns&string=example.com"));
    reflexivity.
Defined.







(** X13. Under the contract of [validator], a validated method sends a
    request exactly when its primary argument is a string that is not
    whitespace only and passes the format check of the method; in every
    other case nothing is sent. *)
Theorem X13_request_iff
    {V : Validator} {VC : ValidatorContract V}
    {Response : Type} {T : Transport Response}
    (m : method) (this : WebResolver) (args : list JsValue) :
  validated m = true →
  requests (events (call (Response:=Response) m this args)) ≠ []
  ↔ ∃ s, arg 0 args = JString s
         ∧ whitespace_only s = false
         ∧ format_check (format_of m) (JString s) = Normal true.
Proof.
  intros Hm. split.
  - intros Hreq. destruct (blank (arg 0 args)) eqn:Hb.
    { by rewrite (call_empty m this args Hm (isEmpty_blank _ Hb)) in Hreq. }
    destruct (typeof_string (arg 0 args)) eqn:Ht.
    + destruct (arg 0 args) as [| | | |s] eqn:Ha; try discriminate Ht.
      exists s. split; [done|]. split; [done|].
      pose proof (isEmpty_text s Hb) as He. rewrite <- Ha in He.
      rewrite (call_text m this args Hm He), Ha in Hreq.
      by destruct (format_check (format_of m) (JString s)) as [[]|].
    + destruct (isEmpty_not_string _ Hb Ht) as [msg He].
      by rewrite (call_throw m this args _ Hm He) in Hreq.
  - intros (s & Ha & Hs & Hf).
    pose proof (isEmpty_text s Hs) as He. rewrite <- Ha in He.
    rewrite (call_text m this args Hm He), Ha, Hf. done.
Qed.

Lemma X13_witness :
  requests (events (Sample.run Ip2websites "KEY" [JString (js "1.2.3.4")])) ≠ []
  ↔ ∃ s, arg 0 [JString (js "1.2.3.4")] = JString s
         ∧ whitespace_only s = false
         ∧ @format_check Sample.validator (format_of Ip2websites) (JString s) = Normal true.
Proof.
  apply (X13_request_iff (VC:=sample_validator_contract) (T:=Sample.axios)
           Ip2websites (Sample.client "KEY") [JString (js "1.2.3.4")]).
  reflexivity.
Defined.

(** ** An [&] inside an argument *)



(** X15. [portscan] does not tell a port given as argument from one
    written into the url text: under the contract of [validator], for a
    url text that is not blank and a port that is neither [undefined] nor
    [null], the call with the url text followed by [&port=] and the port,
    and no port argument, performs the same events and ends the same way
    as the call with the url text and the port. *)
Theorem X15_port_in_url_text
    {V : Validator} {VC : ValidatorContract V}
    {Response : Type} {T : Transport Response}
    (this : WebResolver) (s : jsstring) (port : JsValue) :
  whitespace_only s = false →
  port ≠ JUndefined →
  port ≠ JNull →
  call (Response:=Response) Portscan this [JString (s ++ js "&port=" ++ ToString port)]
  = call (Response:=Response) Portscan this [JString s; port].
Proof.
  intros Hs Hu Hn.
  assert (Hs' : whitespace_only (s ++ js "&port=" ++ ToString port) = false).
  { unfold whitespace_only in *. by rewrite forallb_app, Hs. }
  rewrite (call_text Portscan this [JString s; port] eq_refl (isEmpty_text s Hs)).
  rewrite (call_text Portscan this [JString (s ++ js "&port=" ++ ToString port)]
             eq_refl (isEmpty_text _ Hs')).
  cbn [format_of format_check]. f_equal. unfold request_url.
  cbn [string_param extra_params arg nth ToString].
  rewrite app_nil_r. by destruct port.
Qed.

Lemma X15_witness :
  Sample.run Portscan "KEY" [JString (js "example.com&port=443")]
  = Sample.run Portscan "KEY" [JString (js "example.com"); JNumber 443].
Proof.
  apply (X15_port_in_url_text (VC:=sample_validator_contract) (T:=Sample.axios)
           (Sample.client "KEY") (js "example.com") (JNumber 443));
    [reflexivity|discriminate|discriminate].
Defined.
